(** * Band indices of [dea_bandindices.py]

    A shallow embedding of [calculate_indices]
    (DEA_sandbox/Case_Studies/utils/dea_bandindices.py) and the properties
    of its registry of index recipes, of its per-collection band renaming and
    of its error paths.

    The function receives an xarray [Dataset], which it reads, renames and
    rescales into a temporary dataset, and finally mutates by assigning one
    band.  The model keeps exactly that: a dataset is a finite map from band
    names to arrays, the caller's dataset is the state of a small
    state-and-exception monad, and the temporaries are ordinary values. *)

From Stdlib Require Import ZArith QArith Qcanon PrimFloat Uint63 Ascii.
From stdpp Require Import gmap strings list fin_maps.

Local Open Scope string_scope.

(** ** Numbers

    The recipes are arithmetic over the element type of the arrays.  They
    are written once, over an interface with the four operations the source
    uses and an injection of Python's numeric literals, and run at two
    element types: binary64 floats (what NumPy computes with once a band has
    been divided by the float [1000.0]) and exact rationals. *)

Class Num (F : Type) := {
  flit : Q → F;
  fadd : F → F → F;
  fsub : F → F → F;
  fmul : F → F → F;
  fdiv : F → F → F
}.

(** Exact rationals in canonical form, so that equal numbers are equal
    terms.  [Qcdiv x 0] is [0]; IEEE infinities and NaN exist only at
    [float]. *)
#[export] Instance Qc_Num : Num Qc := {
  flit := Q2Qc;
  fadd := Qcplus;
  fsub := Qcminus;
  fmul := Qcmult;
  fdiv := Qcdiv
}.

Definition float_of_Z (z : Z) : float :=
  match z with
  | Z0 => PrimFloat.zero
  | Zpos _ => PrimFloat.of_uint63 (Uint63.of_Z z)
  | Zneg p => PrimFloat.opp (PrimFloat.of_uint63 (Uint63.of_Z (Zpos p)))
  end.

(** A decimal literal [m / 10^k] with [m] and [10^k] below [2^53] is the
    correctly rounded quotient of two exactly represented integers, which
    is the double Python reads the literal as. *)
Definition float_of_Q (q : Q) : float :=
  PrimFloat.div (float_of_Z (Qnum q)) (float_of_Z (Zpos (Qden q))).

#[export] Instance float_Num : Num float := {
  flit := float_of_Q;
  fadd := PrimFloat.add;
  fsub := PrimFloat.sub;
  fmul := PrimFloat.mul;
  fdiv := PrimFloat.div
}.

(** ** Arrays

    A [DataArray] is either a scalar (a Python number, or a band without
    dimensions) or the values of a band on the pixel grid, flattened.  The
    bands of one dataset share their dimensions, so arithmetic between two
    bands is elementwise, and a scalar is broadcast against a band. *)

Inductive DataArray (F : Type) : Type :=
  | scalar (x : F)
  | pixels (xs : list F).
Arguments scalar {F} x.
Arguments pixels {F} xs.

Definition broadcast {F} (op : F → F → F) (a b : DataArray F) : DataArray F :=
  match a, b with
  | scalar x, scalar y => scalar (op x y)
  | scalar x, pixels ys => pixels (op x <$> ys)
  | pixels xs, scalar y => pixels ((λ x, op x y) <$> xs)
  | pixels xs, pixels ys => pixels (zip_with op xs ys)
  end.

(** ** Exceptions *)

Inductive exn : Type :=
  | ValueError (msg : string)
  | AttributeError (name : string).

Inductive result (A : Type) : Type :=
  | Ok (a : A)
  | Raise (e : exn).
Arguments Ok {A} a.
Arguments Raise {A} e.

#[export] Instance result_ret : MRet result := λ A a, Ok a.
#[export] Instance result_bind : MBind result := λ A B f m,
  match m with
  | Ok a => f a
  | Raise e => Raise e
  end.

(** ** Datasets

    The data variables of an xarray [Dataset], by name. *)
Abbreviation Dataset F := (gmap string (DataArray F)).

Section dataset.
Context {F : Type} `{Num F}.

(** [ds.<name>]: attribute-style access to a band. *)
Definition getattr (ds : Dataset F) (name : string) : result (DataArray F) :=
  match ds !! name with
  | Some a => Ok a
  | None => Raise (AttributeError name)
  end.

(** [name in ds.variables] *)
Definition in_variables (name : string) (ds : Dataset F) : Prop :=
  is_Some (ds !! name).

#[export] Instance in_variables_dec name ds : Decision (in_variables name ds).
Proof. unfold in_variables. apply _. Defined.

(** [name_dict.get(k, k)] *)
Definition new_name (name_dict : list (string * string)) (k : string) : string :=
  default k (list_to_map (M := gmap string string) name_dict !! k).

(** [ds.rename(name_dict)], following xarray: every key of [name_dict]
    has to name a variable of [ds], and no two variables may end up
    under one name; both failures are [ValueError]s of the library.
    (xarray's messages also quote the offending name, which for the
    conflict depends on the order of the variables.) *)
Definition rename (ds : Dataset F) (name_dict : list (string * string))
  : result (Dataset F) :=
  if bool_decide (Forall (λ k, in_variables k ds) name_dict.*1) then
    let renamed := prod_map (new_name name_dict) id <$> map_to_list ds in
    if bool_decide (NoDup renamed.*1) then Ok (list_to_map renamed)
    else Raise (ValueError "the new name conflicts")
  else
    Raise (ValueError "cannot rename because it is not a variable or dimension in this dataset").

(** [ds / c]: every band divided by the scalar [c]. *)
Definition ds_truediv (ds : Dataset F) (c : Q) : Dataset F :=
  (λ a, broadcast fdiv a (scalar (flit c))) <$> ds.
End dataset.

(** ** The registry of index recipes

    Each recipe is a Python [lambda ds: ...] over band attributes, numeric
    literals and the operators [+ - * / **] and unary [+].  Operands are
    evaluated left to right; a band that is missing raises
    [AttributeError]. *)

(** The type of a recipe. *)
Abbreviation Formula F := (Dataset F → result (DataArray F)).

Section registry.
Context {F : Type} `{Num F}.

Definition binop (op : F → F → F) (x y : result (DataArray F))
  : result (DataArray F) :=
  a ← x; b ← y; mret (broadcast op a b).

(** A numeric literal. *)
Definition py (q : Q) : result (DataArray F) := Ok (scalar (flit q)).

(** Unary plus. *)
Definition uplus (x : result (DataArray F)) : result (DataArray F) :=
  a ← x; mret a.

(** [x ** 2], which NumPy computes as the product [x * x]. *)
Definition pow2 (x : result (DataArray F)) : result (DataArray F) :=
  a ← x; mret (broadcast fmul a a).

Declare Scope py_scope.
Delimit Scope py_scope with py.
Notation "x + y" := (binop fadd x y) : py_scope.
Notation "x - y" := (binop fsub x y) : py_scope.
Notation "x * y" := (binop fmul x y) : py_scope.
Notation "x / y" := (binop fdiv x y) : py_scope.
Notation "ds ~> name" := (getattr ds name) (at level 9, name at level 0) : py_scope.
Arguments py q%_Q.

Definition index_list : list (string * Formula F) := ([
  (* Normalised Difference Vegation Index, Rouse 1973 *)
  ("NDVI", λ ds, (ds~>"nir" - ds~>"red") /
                 (ds~>"nir" + ds~>"red"));
  (* Enhanced Vegetation Index, Huete 2002 *)
  ("EVI", λ ds, ((py 2.5 * (ds~>"nir" - ds~>"red")) /
                 (ds~>"nir" + py 6 * ds~>"red" -
                  py 7.5 * ds~>"blue" + py 1)));
  (* Leaf Area Index, Boegh 2002 *)
  ("LAI", λ ds, (py 3.618 * ((py 2.5 * (ds~>"nir" - ds~>"red")) /
                 (ds~>"nir" + py 6 * ds~>"red" -
                  py 7.5 * ds~>"blue" + py 1)) - py 0.118));
  (* Soil Adjusted Vegetation Index, Huete 1988 *)
  ("SAVI", λ ds, ((py 1.5 * (ds~>"nir" - ds~>"red")) /
                  (ds~>"nir" + ds~>"red" + py 0.5)));
  (* Normalised Difference Moisture Index, Gao 1996 *)
  ("NDMI", λ ds, (ds~>"nir" - ds~>"swir1") /
                 (ds~>"nir" + ds~>"swir1"));
  (* Normalised Burn Ratio, Lopez Garcia 1991 *)
  ("NBR", λ ds, (ds~>"nir" - ds~>"swir2") /
                (ds~>"nir" + ds~>"swir2"));
  (* Burn Area Index, Martin 1998 *)
  ("BAI", λ ds, (py 1.0 / (pow2 (py 0.10 - ds~>"red") +
                           pow2 (py 0.06 - ds~>"nir"))));
  (* Normalised Difference Built-Up Index, Zha 2003 *)
  ("NDBI", λ ds, (ds~>"swir1" - ds~>"nir") /
                 (ds~>"swir1" + ds~>"nir"));
  (* Normalised Difference Snow Index, Hall 1995 *)
  ("NDSI", λ ds, (ds~>"green" - ds~>"swir1") /
                 (ds~>"green" + ds~>"swir1"));
  (* Normalised Difference Water Index, McFeeters 1996 *)
  ("NDWI", λ ds, (ds~>"green" - ds~>"nir") /
                 (ds~>"green" + ds~>"nir"));
  (* Modified Normalised Difference Water Index, Xu 2006 *)
  ("MNDWI", λ ds, (ds~>"green" - ds~>"swir1") /
                  (ds~>"green" + ds~>"swir1"));
  (* Automated Water Extraction Index (no shadows), Feyisa 2014 *)
  ("AWEI_ns", λ ds, (py 4 * (ds~>"green" - ds~>"swir1") -
                     (py 2.5 * ds~>"nir" * uplus (py 2.75) * ds~>"swir2")));
  (* Automated Water Extraction Index (shadows), Feyisa 2014 *)
  ("AWEI_sh", λ ds, (ds~>"blue" + py 2.5 * ds~>"green" -
                     py 1.5 * (ds~>"nir" + ds~>"swir1") -
                     py 2.5 * ds~>"swir2"));
  (* Water Index, Fisher 2016 *)
  ("WI", λ ds, (py 1.7204 + py 171 * ds~>"green" + py 3 * ds~>"red" -
                py 70 * ds~>"nir" - py 45 * ds~>"swir1" -
                py 71 * ds~>"swir2"));
  (* Tasseled Cap Wetness, Crist 1985 *)
  ("TCW", λ ds, (py 0.0315 * ds~>"blue" + py 0.2021 * ds~>"green" +
                 py 0.3102 * ds~>"red" + py 0.1594 * ds~>"nir" +
                 py (-0.6806) * ds~>"swir1" + py (-0.6109) * ds~>"swir2"));
  (* Tasseled Cap Greeness, Crist 1985 *)
  ("TCG", λ ds, (py (-0.1603) * ds~>"blue" + py (-0.2819) * ds~>"green" +
                 py (-0.4934) * ds~>"red" + py 0.7940 * ds~>"nir" +
                 py (-0.0002) * ds~>"swir1" + py (-0.1446) * ds~>"swir2"));
  (* Tasseled Cap Brightness, Crist 1985 *)
  ("TCB", λ ds, (py 0.2043 * ds~>"blue" + py 0.4158 * ds~>"green" +
                 py 0.5524 * ds~>"red" + py 0.5741 * ds~>"nir" +
                 py 0.3124 * ds~>"swir1" + py (-0.2303) * ds~>"swir2"));
  (* Clay Minerals Ratio, Drury 1987 *)
  ("CMR", λ ds, (ds~>"swir1" / ds~>"swir2"));
  (* Ferrous Minerals Ratio, Segal 1982 *)
  ("FMR", λ ds, (ds~>"swir1" / ds~>"nir"));
  (* Iron Oxide Ratio, Segal 1982 *)
  ("IOR", λ ds, (ds~>"red" / ds~>"blue"))
])%py.

(** The dictionary [index_dict] built from the literal above. *)
Definition index_dict : gmap string (Formula F) := list_to_map index_list.

End registry.

(** ** Collections and their band names *)

(** [bandnames_dict] of the branch [collection == 'ga_landsat_3']. *)
Definition bandnames_dict_ga_landsat_3 : list (string * string) := [
  ("nbart_nir", "nir");
  ("nbart_red", "red");
  ("nbart_green", "green");
  ("nbart_blue", "blue");
  ("nbart_swir_1", "swir1");
  ("nbart_swir_2", "swir2");
  ("nbar_red", "red");
  ("nbar_green", "green");
  ("nbar_blue", "blue");
  ("nbar_nir", "nir");
  ("nbar_swir_1", "swir1");
  ("nbar_swir_2", "swir2")
].

(** [bandnames_dict] of the branch [collection == 'ga_sentinel2_1']. *)
Definition bandnames_dict_ga_sentinel2_1 : list (string * string) := [
  ("nbart_red", "red");
  ("nbart_green", "green");
  ("nbart_blue", "blue");
  ("nbart_nir_1", "nir");
  ("nbart_swir_2", "swir1");
  ("nbart_swir_3", "swir2");
  ("nbar_red", "red");
  ("nbar_green", "green");
  ("nbar_blue", "blue");
  ("nbar_nir", "nir");
  ("nbar_swir_2", "swir1");
  ("nbar_swir_3", "swir2")
].

(** ** Messages of the exceptions raised *)

Definition LF : string := String "010"%char EmptyString.

Definition msg_no_index : string :=
  "No remote sensing `index` was provided. Please "
  ++ "refer to the function " ++ LF ++ "documentation for a full "
  ++ "list of valid options for `index` (e.g. 'NDVI')".

Definition msg_invalid_index (index : string) : string :=
  "The selected index '" ++ index ++ "' is not one of the "
  ++ "valid remote sensing index options. " ++ LF ++ "Please "
  ++ "refer to the function documentation for a full "
  ++ "list of valid options for `index`".

Definition msg_no_collection : string :=
  "'No `collection` was provided. Please specify "
  ++ "either 'ga_landsat_2', 'ga_landsat_3' " ++ LF ++ "or "
  ++ "'ga_sentinel2_1' to ensure the function calculates "
  ++ "indices using the correct spectral bands".

Definition msg_invalid_collection (collection : string) : string :=
  "'" ++ collection ++ "' is not a valid option for "
  ++ "`collection`. Please specify either " ++ LF
  ++ "'ga_landsat_2', 'ga_landsat_3' or "
  ++ "'ga_sentinel2_1'".

Definition msg_missing_bands (index : string) : string :=
  "Please verify that all bands required to "
  ++ "compute " ++ index ++ " are present in `ds`. " ++ LF
  ++ "These bands may vary depending on the `collection` "
  ++ "(e.g. the Landsat `nbart_nir` band " ++ LF
  ++ "is equivelent to `nbart_nir_1` for Sentinel 2)".

(** ** The caller's dataset as state

    [calculate_indices] ends with [ds[output_band_name] = index_array],
    which mutates the object the caller passed, and returns that same
    object.  A computation therefore runs on the caller's dataset and
    leaves it behind together with its result or its exception. *)

Definition M (F A : Type) : Type := Dataset F → result A * Dataset F.

#[export] Instance M_ret {F} : MRet (M F) := λ A a ds, (Ok a, ds).
#[export] Instance M_bind {F} : MBind (M F) := λ A B f m ds,
  match m ds with
  | (Ok a, ds') => f a ds'
  | (Raise e, ds') => (Raise e, ds')
  end.

Section calculate.
Context {F : Type} `{Num F}.

Definition raise {A} (e : exn) : M F A := λ ds, (Raise e, ds).

(** The object bound to the parameter [ds]. *)
Definition self : M F (Dataset F) := λ ds, (Ok ds, ds).

(** A computation on temporaries only. *)
Definition pure {A} (r : result A) : M F A := λ ds, (r, ds).

(** [ds[name] = a] *)
Definition setitem (name : string) (a : DataArray F) : M F unit :=
  λ ds, (Ok tt, <[name := a]> ds).

(** [try: body  except AttributeError: handler] *)
Definition try_except_AttributeError {A} (body handler : M F A) : M F A :=
  λ ds,
    match body ds with
    | (Raise (AttributeError _), ds') => handler ds'
    | r => r
    end.

(** Truth value of [custom_varname]: [None] and the empty string are
    false. *)
Definition truthy (s : option string) : bool :=
  match s with
  | None | Some "" => false
  | Some _ => true
  end.

(** [custom_varname if custom_varname else index] *)
Definition output_band_name (custom_varname : option string) (index : string)
  : string :=
  if truthy custom_varname then default index custom_varname else index.

(** [{a: b for a, b in bandnames_dict.items() if a in ds.variables}] *)
Definition present_bands (bandnames_dict : list (string * string))
  (ds : Dataset F) : list (string * string) :=
  filter (λ ab, in_variables ab.1 ds) bandnames_dict.

Definition calculate_indices
  (index collection custom_varname : option string) : M F (Dataset F) :=
  (* Select an index function based on [index] *)
  let index_func := i ← index; index_dict !! i in
  match index, index_func with
  | None, _ => raise (ValueError msg_no_index)
  | Some index, None => raise (ValueError (msg_invalid_index index))
  | Some index, Some index_func =>
    (* Rename bands to a consistent format *)
    bands_to_rename ←
      match collection with
      | None => raise (ValueError msg_no_collection)
      | Some collection =>
        if String.eqb collection "ga_landsat_3" then
          ds ← self; mret (present_bands bandnames_dict_ga_landsat_3 ds)
        else if String.eqb collection "ga_sentinel2_1" then
          ds ← self; mret (present_bands bandnames_dict_ga_sentinel2_1 ds)
        else if String.eqb collection "ga_landsat_2" then
          mret []
        else
          raise (ValueError (msg_invalid_collection collection))
      end;
    (* Apply index function after dividing by 1000.0 *)
    index_array ←
      try_except_AttributeError
        (ds ← self;
         pure (renamed ← rename ds bands_to_rename;
               index_func (ds_truediv renamed 1000.0)))
        (raise (ValueError (msg_missing_bands index)));
    (* Add as a new variable in dataset *)
    setitem (output_band_name custom_varname index) index_array;;
    (* Return input dataset with added index variable *)
    self
  end.

End calculate.

(** ** Vocabulary of the statements *)

(** The value of an array at pixel [i]; a scalar has the same value at
    every pixel. *)
Definition at_pixel {F} (a : DataArray F) (i : nat) : option F :=
  match a with
  | scalar x => Some x
  | pixels xs => xs !! i
  end.

Section vocabulary.
Context {F : Type} `{Num F}.
Implicit Types (ds : Dataset F).

(** The codes under which a recipe is registered, in the order of the
    dictionary literal. *)
Definition index_names : list string := [
  "NDVI"; "EVI"; "LAI"; "SAVI"; "NDMI"; "NBR"; "BAI"; "NDBI"; "NDSI";
  "NDWI"; "MNDWI"; "AWEI_ns"; "AWEI_sh"; "WI"; "TCW"; "TCG"; "TCB"; "CMR";
  "FMR"; "IOR"
].

(** The bands each recipe reads, in the order it reads them first. *)
Definition index_bands_table : list (string * list string) := [
  ("NDVI", ["nir"; "red"]);
  ("EVI", ["nir"; "red"; "blue"]);
  ("LAI", ["nir"; "red"; "blue"]);
  ("SAVI", ["nir"; "red"]);
  ("NDMI", ["nir"; "swir1"]);
  ("NBR", ["nir"; "swir2"]);
  ("BAI", ["red"; "nir"]);
  ("NDBI", ["swir1"; "nir"]);
  ("NDSI", ["green"; "swir1"]);
  ("NDWI", ["green"; "nir"]);
  ("MNDWI", ["green"; "swir1"]);
  ("AWEI_ns", ["green"; "swir1"; "nir"; "swir2"]);
  ("AWEI_sh", ["blue"; "green"; "nir"; "swir1"; "swir2"]);
  ("WI", ["green"; "red"; "nir"; "swir1"; "swir2"]);
  ("TCW", ["blue"; "green"; "red"; "nir"; "swir1"; "swir2"]);
  ("TCG", ["blue"; "green"; "red"; "nir"; "swir1"; "swir2"]);
  ("TCB", ["blue"; "green"; "red"; "nir"; "swir1"; "swir2"]);
  ("CMR", ["swir1"; "swir2"]);
  ("FMR", ["swir1"; "nir"]);
  ("IOR", ["red"; "blue"])
].

Definition index_bands (index : string) : list string :=
  default [] (list_to_map (M := gmap string (list string)) index_bands_table
              !! index).

(** The expression of the [AWEI_ns] recipe at one pixel, as Python reads
    [4 * (green - swir1) - (2.5 * nir * + 2.75 * swir2)]: the unary plus
    applies to [2.75], and the three factors are multiplied from left to
    right. *)
Definition awei_ns_pixel (green swir1 nir swir2 : F) : F :=
  fsub (fmul (flit 4) (fsub green swir1))
       (fmul (fmul (fmul (flit 2.5) nir) (flit 2.75)) swir2).

(** The AWEI_ns of the literature (Feyisa 2014) at one pixel:
    4 (green - swir1) - (2.5 nir + 2.75 swir2), with a sum of two terms
    where the registered recipe has a product. *)
Definition awei_ns_textbook (green swir1 nir swir2 : F) : F :=
  fsub (fmul (flit 4) (fsub green swir1))
       (fadd (fmul (flit 2.5) nir) (fmul (flit 2.75) swir2)).

(** The canonical band names. *)
Definition canonical_names : list string :=
  ["red"; "green"; "blue"; "nir"; "swir1"; "swir2"].

Definition collection_names : list string :=
  ["ga_landsat_2"; "ga_landsat_3"; "ga_sentinel2_1"].

(** The [bandnames_dict] of the branch of [collection]; [ga_landsat_2] has
    none and renames nothing. *)
Definition bandnames_dict_of (collection : string) : list (string * string) :=
  if String.eqb collection "ga_landsat_3" then bandnames_dict_ga_landsat_3
  else if String.eqb collection "ga_sentinel2_1" then
    bandnames_dict_ga_sentinel2_1
  else [].

(** The dictionary [bands_to_rename] the branch of [collection] builds;
    [None] when no branch is taken. *)
Definition bands_to_rename (collection : string) ds
  : option (list (string * string)) :=
  if String.eqb collection "ga_landsat_3" then
    Some (present_bands bandnames_dict_ga_landsat_3 ds)
  else if String.eqb collection "ga_sentinel2_1" then
    Some (present_bands bandnames_dict_ga_sentinel2_1 ds)
  else if String.eqb collection "ga_landsat_2" then Some []
  else None.

(** [index_func(ds.rename(bands_to_rename)/1000.0)] *)
Definition index_array (index_func : Formula F)
  (name_dict : list (string * string)) ds : result (DataArray F) :=
  renamed ← rename ds name_dict; index_func (ds_truediv renamed 1000.0).

End vocabulary.

(** Whether the text [needle] occurs in the message [msg]. *)
Definition mentions (msg needle : string) : bool :=
  match String.index 0 needle msg with
  | Some _ => true
  | None => false
  end.

(** ** Sample datasets

    Two pixels per band, as raw digital numbers, under the canonical names
    and under the two families of native names of [ga_landsat_3]. *)

Definition sample_canonical : Dataset float :=
  list_to_map [
    ("red", pixels [1000; 2000]); ("green", pixels [1500; 1800]);
    ("blue", pixels [800; 900]); ("nir", pixels [3000; 2500]);
    ("swir1", pixels [2000; 2200]); ("swir2", pixels [1200; 1500])
  ]%float.

Definition sample_nbart : Dataset float :=
  list_to_map [
    ("nbart_red", pixels [1000; 2000]); ("nbart_green", pixels [1500; 1800]);
    ("nbart_blue", pixels [800; 900]); ("nbart_nir", pixels [3000; 2500]);
    ("nbart_swir_1", pixels [2000; 2200]);
    ("nbart_swir_2", pixels [1200; 1500])
  ]%float.

Definition sample_nbar : Dataset float :=
  list_to_map [
    ("nbar_red", pixels [1000; 2000]); ("nbar_green", pixels [1500; 1800]);
    ("nbar_blue", pixels [800; 900]); ("nbar_nir", pixels [3000; 2500]);
    ("nbar_swir_1", pixels [2000; 2200]);
    ("nbar_swir_2", pixels [1200; 1500])
  ]%float.

(** A [ga_landsat_3] dataset without a near-infrared band. *)
Definition sample_no_nir : Dataset float :=
  list_to_map [
    ("nbart_red", pixels [1000; 2000]); ("nbart_green", pixels [1500; 1800])
  ]%float.

(** Surface reflectances in the unit interval, one pixel per band, under
    the canonical names. *)
Definition sample_reflectance : Dataset float :=
  list_to_map [
    ("red", pixels [0.25]); ("green", pixels [0.5]);
    ("blue", pixels [0.125]); ("nir", pixels [0.75]);
    ("swir1", pixels [0.5]); ("swir2", pixels [0.25])
  ]%float.

(** The dataset that holds, under each native name of [names], 1000 times
    the band of [v] with the canonical name it stands for. *)
Definition as_digital_numbers {F} `{Num F}
  (names : list (string * string)) (v : Dataset F) : Dataset F :=
  list_to_map
    (omap (λ ab, (λ a, (ab.1, broadcast fmul (scalar (flit 1000)) a))
                 <$> v !! ab.2) names).

(** * Properties *)

(** ** Arrays, pixel by pixel *)

Lemma at_pixel_broadcast {F} (op : F → F → F) (a b : DataArray F) i x y :
  at_pixel a i = Some x → at_pixel b i = Some y →
  at_pixel (broadcast op a b) i = Some (op x y).
Proof.
  destruct a as [x'|xs], b as [y'|ys]; simpl; intros Hx Hy.
  - by simplify_eq.
  - simplify_eq. by rewrite list_lookup_fmap, Hy.
  - simplify_eq. by rewrite list_lookup_fmap, Hx.
  - by rewrite lookup_zip_with, Hx; simpl; rewrite Hy.
Qed.

(** ** Literals and messages *)

(** The literals of the recipes that are binary fractions are read
    exactly. *)
Lemma float_of_Q_literals :
  float_of_Q 1000.0 = 1000%float ∧ float_of_Q 2.5 = 2.5%float ∧
  float_of_Q 7.5 = 7.5%float ∧ float_of_Q 0.5 = 0.5%float ∧
  float_of_Q 2.75 = 2.75%float ∧ float_of_Q 171 = 171%float ∧
  float_of_Q (-0.6806) = PrimFloat.opp (float_of_Q 0.6806).
Proof. repeat split; vm_compute; reflexivity. Qed.

Lemma mentions_app_r a b needle :
  mentions b needle = true → mentions (a ++ b) needle = true.
Proof.
  unfold mentions. intros Hb. induction a as [|x a IH]; [exact Hb|].
  change (String.index 0 needle (String x a +:+ b))
    with (if String.prefix needle (String x (a +:+ b)) then Some 0%nat
          else match String.index 0 needle (a +:+ b) with
               | Some n => Some (S n)
               | None => None
               end).
  destruct (String.prefix needle (String x (a +:+ b))); [done|].
  by destruct (String.index 0 needle (a +:+ b)).
Qed.

Lemma msg_index_distinct i : msg_no_index ≠ msg_invalid_index i.
Proof. unfold msg_no_index, msg_invalid_index. simpl. discriminate. Qed.

Lemma msg_collection_distinct c : msg_no_collection ≠ msg_invalid_collection c.
Proof.
  intros Heq.
  assert (Hm : mentions (msg_invalid_collection c) "'ga_landsat_3' or "
               = true).
  { unfold msg_invalid_collection. do 2 apply mentions_app_r.
    vm_compute. reflexivity. }
  rewrite <- Heq in Hm. vm_compute in Hm. discriminate.
Qed.

Section properties.
Context {F : Type} `{Num F}.
Implicit Types (ds : Dataset F) (a : DataArray F).

(** ** Reading and rescaling a dataset *)

Lemma getattr_Some ds name a : ds !! name = Some a → getattr ds name = Ok a.
Proof. unfold getattr. by intros ->. Qed.

Lemma getattr_None ds name :
  ds !! name = None → getattr ds name = Raise (AttributeError name).
Proof. unfold getattr. by intros ->. Qed.

Lemma lookup_ds_truediv ds c name :
  ds_truediv ds c !! name
  = (λ a, broadcast fdiv a (scalar (flit c))) <$> ds !! name.
Proof. unfold ds_truediv. apply lookup_fmap. Qed.

Lemma dom_ds_truediv ds c : dom (ds_truediv ds c) = dom ds.
Proof. unfold ds_truediv. apply dom_fmap_L. Qed.

Lemma at_pixel_truediv a c i x :
  at_pixel a i = Some x →
  at_pixel (broadcast fdiv a (scalar (flit c))) i = Some (fdiv x (flit c)).
Proof. intros Hx. by apply at_pixel_broadcast. Qed.

(** ** Renaming *)

Lemma new_name_nil k : new_name [] k = k.
Proof. unfold new_name. simpl. by rewrite lookup_empty. Qed.

Lemma rename_nil ds : rename ds [] = Ok ds.
Proof.
  assert (Hid : prod_map (new_name []) id <$> map_to_list ds = map_to_list ds).
  { rewrite <- (list_fmap_id (map_to_list ds)) at 2.
    apply list_fmap_ext. intros _ [k v] _. simpl. by rewrite new_name_nil. }
  unfold rename. rewrite Hid.
  case_bool_decide as Hkeys; [|by destruct Hkeys; constructor].
  case_bool_decide as Hnd; [|by destruct Hnd; apply NoDup_fst_map_to_list].
  by rewrite list_to_map_to_list.
Qed.

(** What a successful renaming holds: the band [k] of [ds] under the name
    [new_name name_dict k], and nothing else. *)
Lemma lookup_rename ds name_dict renamed name a :
  rename ds name_dict = Ok renamed →
  renamed !! name = Some a
  ↔ ∃ k, ds !! k = Some a ∧ new_name name_dict k = name.
Proof.
  unfold rename. case_bool_decide; [|done]. case_bool_decide; [|done].
  intros [= <-]. rewrite <- elem_of_list_to_map by done.
  rewrite list_elem_of_fmap. split.
  - intros [[k v] [[= -> ->] Hin]]. exists k.
    by apply elem_of_map_to_list in Hin.
  - intros (k & Hk & <-). exists (k, a). split; [done|].
    by apply elem_of_map_to_list.
Qed.

(** When renaming succeeds: the keys of [name_dict] are variables of [ds]
    and the new names of the variables are pairwise distinct. *)
Lemma rename_Ok ds name_dict :
  (∀ k, k ∈ name_dict.*1 → in_variables k ds) →
  (∀ k1 k2, in_variables k1 ds → in_variables k2 ds →
            new_name name_dict k1 = new_name name_dict k2 → k1 = k2) →
  ∃ renamed, rename ds name_dict = Ok renamed.
Proof.
  intros Hkeys Hinj. unfold rename.
  case_bool_decide as Hall; [|by destruct Hall; apply Forall_forall].
  case_bool_decide as Hnd; [by eexists|]. destruct Hnd.
  rewrite <- list_fmap_compose.
  assert (Heq : (fst ∘ prod_map (new_name name_dict) id)
                <$> map_to_list ds
                = new_name name_dict <$> (map_to_list ds).*1).
  { rewrite <- list_fmap_compose. apply list_fmap_ext. by intros _ [k v] _. }
  rewrite Heq. apply NoDup_fmap_2_strong; [|apply NoDup_fst_map_to_list].
  intros k1 k2 Hk1 Hk2. apply Hinj.
  - apply list_elem_of_fmap in Hk1 as [[k v] [-> Hin]].
    apply elem_of_map_to_list in Hin. by exists v.
  - apply list_elem_of_fmap in Hk2 as [[k v] [-> Hin]].
    apply elem_of_map_to_list in Hin. by exists v.
Qed.

Lemma rename_Ok_inv ds name_dict renamed :
  rename ds name_dict = Ok renamed →
  (∀ k, k ∈ name_dict.*1 → in_variables k ds) ∧
  (∀ k1 k2, in_variables k1 ds → in_variables k2 ds →
            new_name name_dict k1 = new_name name_dict k2 → k1 = k2).
Proof.
  intros Hren. split.
  - unfold rename in Hren. case_bool_decide as Hall; [|done].
    by apply Forall_forall.
  - intros k1 k2 [a1 H1] [a2 H2] Heq.
    unfold rename in Hren. case_bool_decide; [|done].
    case_bool_decide as Hnd; [|done]. clear Hren.
    rewrite <- list_fmap_compose in Hnd.
    apply elem_of_map_to_list in H1, H2.
    apply list_elem_of_lookup in H1 as [i1 H1], H2 as [i2 H2].
    assert (i1 = i2) as ->.
    { eapply NoDup_lookup; [exact Hnd| |].
      - rewrite list_lookup_fmap, H1. simpl. reflexivity.
      - rewrite list_lookup_fmap, H2. simpl. by rewrite Heq. }
    congruence.
Qed.

(** The filtered dictionary of a collection keeps the entries whose key is
    a variable of the dataset. *)
Lemma present_bands_dom bandnames_dict ds :
  present_bands bandnames_dict ds
  = filter (λ ab, ab.1 ∈ dom ds) bandnames_dict.
Proof.
  unfold present_bands. apply list_filter_iff. intros [k v]. simpl.
  unfold in_variables. by rewrite elem_of_dom.
Qed.

Lemma lookup_present_bands bandnames_dict ds k :
  list_to_map (M := gmap string string) (present_bands bandnames_dict ds) !! k
  = if decide (in_variables k ds)
    then list_to_map (M := gmap string string) bandnames_dict !! k
    else None.
Proof.
  unfold present_bands.
  induction bandnames_dict as [|[k' v'] l IH]; simpl.
  { rewrite lookup_empty. by case_decide. }
  rewrite filter_cons. simpl. destruct (decide (in_variables k' ds)) as [Hk'|Hk'].
  - simpl. destruct (decide (k' = k)) as [->|Hne].
    + rewrite !lookup_insert_eq. by rewrite decide_True.
    + rewrite !lookup_insert_ne by done. exact IH.
  - rewrite IH. case_decide as Hk; [|done].
    rewrite lookup_insert_ne; [done|]. by intros ->.
Qed.

Lemma new_name_present_bands bandnames_dict ds k :
  new_name (present_bands bandnames_dict ds) k
  = if decide (in_variables k ds) then new_name bandnames_dict k else k.
Proof.
  unfold new_name. rewrite lookup_present_bands. by case_decide.
Qed.

Lemma present_bands_keys bandnames_dict ds k :
  k ∈ (present_bands bandnames_dict ds).*1 → in_variables k ds.
Proof.
  unfold present_bands. intros [[k' v] [-> Hin]]%list_elem_of_fmap.
  by apply list_elem_of_filter in Hin as [? _].
Qed.

Lemma insert_value_inj ds name a a' :
  <[name := a']> ds = <[name := a]> ds → a' = a.
Proof.
  intros Heq. apply (f_equal (.!! name)) in Heq.
  rewrite !lookup_insert_eq in Heq. congruence.
Qed.

(** ** The registry *)

Lemma index_list_names : (index_list (F := F)).*1 = index_names.
Proof. reflexivity. Qed.

Lemma index_names_NoDup : NoDup index_names.
Proof. apply (bool_decide_unpack _). by vm_compute. Qed.

Lemma index_dict_lookup_Some i (f : Formula F) :
  index_dict !! i = Some f ↔ (i, f) ∈ index_list.
Proof.
  unfold index_dict. symmetry. apply elem_of_list_to_map.
  rewrite index_list_names. apply index_names_NoDup.
Qed.

Lemma index_dict_lookup_None i :
  index_dict (F := F) !! i = None ↔ i ∉ index_names.
Proof.
  unfold index_dict. rewrite <- index_list_names.
  symmetry. apply not_elem_of_list_to_map.
Qed.

Lemma index_dict_registered i :
  is_Some (index_dict (F := F) !! i) ↔ i ∈ index_names.
Proof.
  split.
  - intros [f Hf]. destruct (decide (i ∈ index_names)) as [|Hn]; [done|].
    apply index_dict_lookup_None in Hn. congruence.
  - intros Hin. destruct (index_dict !! i) eqn:Hi; [by eexists|].
    by apply index_dict_lookup_None in Hi.
Qed.

Lemma index_bands_canonical i b : b ∈ index_bands i → b ∈ canonical_names.
Proof.
  assert (Hall : Forall (λ ib, Forall (.∈ canonical_names) ib.2)
                        index_bands_table)
    by (apply (bool_decide_unpack _); by vm_compute).
  unfold index_bands.
  destruct (list_to_map _ !! i) as [bs|] eqn:Hbs; simpl;
    [|by intros ?%elem_of_nil].
  apply elem_of_list_to_map_2 in Hbs.
  rewrite Forall_forall in Hall. specialize (Hall _ Hbs). simpl in Hall.
  rewrite Forall_forall in Hall. apply Hall.
Qed.

(** A recipe evaluates to an array exactly when every band it reads is in
    the dataset it is given; otherwise the lookup of one of its bands
    fails. *)
Lemma index_func_eval i (f : Formula F) ds :
  index_dict !! i = Some f →
  (Forall (λ b, is_Some (ds !! b)) (index_bands i) ∧ ∃ a, f ds = Ok a)
  ∨ (∃ b, b ∈ index_bands i ∧ ds !! b = None
          ∧ f ds = Raise (AttributeError b)).
Proof.
  intros Hf%index_dict_lookup_Some. unfold index_list in Hf.
  repeat (apply elem_of_cons in Hf as [[= -> ->]|Hf]);
    [..|by apply elem_of_nil in Hf];
    match goal with
    | |- context [index_bands ?i] =>
        let bs := eval vm_compute in (index_bands i) in
        change (index_bands i) with bs
    end;
    cbv [getattr binop pow2 uplus py mbind mret result_bind result_ret];
    repeat match goal with
           | |- context [match ds !! ?b with _ => _ end] =>
               destruct (ds !! b) eqn:?
           end;
    first
      [ left; split; [repeat constructor; by eexists | by eexists]
      | right; refine (ex_intro _ _ (conj _ (conj _ eq_refl)));
        [apply (bool_decide_unpack _); by vm_compute | assumption] ].
Qed.

Lemma index_func_Ok i (f : Formula F) ds :
  index_dict !! i = Some f →
  (∀ b, b ∈ index_bands i → is_Some (ds !! b)) →
  ∃ a, f ds = Ok a.
Proof.
  intros Hf Hbands.
  destruct (index_func_eval i f ds Hf) as [[_ ?]|(b & Hb & Hnone & _)];
    [done|].
  apply Hbands in Hb as [a Ha]. congruence.
Qed.

Lemma index_func_Ok_inv i (f : Formula F) ds a b :
  index_dict !! i = Some f → f ds = Ok a →
  b ∈ index_bands i → is_Some (ds !! b).
Proof.
  intros Hf Ha Hb.
  destruct (index_func_eval i f ds Hf) as [[Hall _]|(b' & _ & _ & Hr)];
    [|congruence].
  rewrite Forall_forall in Hall. by apply Hall.
Qed.

Lemma index_func_missing i (f : Formula F) ds b :
  index_dict !! i = Some f → b ∈ index_bands i → ds !! b = None →
  ∃ b', f ds = Raise (AttributeError b').
Proof.
  intros Hf Hb Hnone.
  destruct (index_func_eval i f ds Hf) as [[Hall _]|(b' & _ & _ & Hr)];
    [|by eexists].
  rewrite Forall_forall in Hall. apply Hall in Hb as [a Ha]. congruence.
Qed.

(** ** The shape of a call

    With a registered index and a valid collection, a call computes the
    array below from the caller's dataset and then either attaches it or
    raises, leaving the dataset as it was. *)

Lemma bands_to_rename_None c ds :
  bands_to_rename c ds = None ↔ c ∉ collection_names.
Proof.
  unfold bands_to_rename, collection_names.
  repeat match goal with
         | |- context [String.eqb c ?s] =>
             destruct (String.eqb_spec c s) as [->|?];
             [split; [done|]; intros Hn; destruct Hn;
              apply (bool_decide_unpack _); by vm_compute|]
         end.
  split; [intros _|done].
  rewrite !not_elem_of_cons. repeat split; try done. apply not_elem_of_nil.
Qed.

Lemma bands_to_rename_is_Some c ds :
  is_Some (bands_to_rename c ds) ↔ c ∈ collection_names.
Proof.
  destruct (bands_to_rename c ds) eqn:Hc.
  - split; [|by eexists]. intros _.
    destruct (decide (c ∈ collection_names)) as [|Hn]; [done|].
    apply (bands_to_rename_None c ds) in Hn. congruence.
  - apply bands_to_rename_None in Hc. split; [by intros [? ?]|done].
Qed.

Lemma bands_to_rename_Some c ds name_dict :
  bands_to_rename c ds = Some name_dict →
  ∀ ds', bands_to_rename c ds'
         = Some (present_bands (bandnames_dict_of c) ds').
Proof.
  unfold bands_to_rename, bandnames_dict_of. intros Hc ds'.
  repeat match goal with
         | |- context [String.eqb c ?s] => destruct (String.eqb c s)
         end; done.
Qed.

(** A band keeps its name or takes a canonical one. *)
Lemma new_name_bandnames_dict c k :
  new_name (bandnames_dict_of c) k = k
  ∨ (k ∈ (bandnames_dict_of c).*1
     ∧ new_name (bandnames_dict_of c) k ∈ canonical_names).
Proof.
  assert (Hall : ∀ table,
    Forall (λ ab, ab.2 ∈ canonical_names) table →
    new_name table k = k
    ∨ (k ∈ table.*1 ∧ new_name table k ∈ canonical_names)).
  { intros table Htable. unfold new_name.
    destruct (list_to_map _ !! k) as [v|] eqn:Hk; [|by left].
    right. apply elem_of_list_to_map_2 in Hk. split.
    - apply list_elem_of_fmap. by exists (k, v).
    - rewrite Forall_forall in Htable. apply (Htable _ Hk). }
  unfold bandnames_dict_of.
  repeat match goal with
         | |- context [String.eqb c ?s] => destruct (String.eqb c s)
         end;
    apply Hall; apply (bool_decide_unpack _); by vm_compute.
Qed.

Lemma calculate_indices_no_index collection custom_varname ds :
  calculate_indices None collection custom_varname ds
  = (Raise (ValueError msg_no_index), ds).
Proof. reflexivity. Qed.

Lemma calculate_indices_invalid_index i collection custom_varname ds :
  index_dict (F := F) !! i = None →
  calculate_indices (Some i) collection custom_varname ds
  = (Raise (ValueError (msg_invalid_index i)), ds).
Proof.
  intros Hi. unfold calculate_indices. cbn [mbind option_bind].
  by rewrite Hi.
Qed.

Lemma calculate_indices_no_collection i (f : Formula F) custom_varname ds :
  index_dict !! i = Some f →
  calculate_indices (Some i) None custom_varname ds
  = (Raise (ValueError msg_no_collection), ds).
Proof.
  intros Hi. unfold calculate_indices. cbn [mbind option_bind].
  by rewrite Hi.
Qed.

Lemma calculate_indices_invalid_collection i (f : Formula F) c custom_varname ds :
  index_dict !! i = Some f → bands_to_rename c ds = None →
  calculate_indices (Some i) (Some c) custom_varname ds
  = (Raise (ValueError (msg_invalid_collection c)), ds).
Proof.
  intros Hi Hc. unfold calculate_indices. cbn [mbind option_bind].
  rewrite Hi.
  unfold bands_to_rename in Hc.
  repeat (destruct (String.eqb c _); [done|]). reflexivity.
Qed.

Lemma calculate_indices_valid i (f : Formula F) c name_dict custom_varname ds :
  index_dict !! i = Some f → bands_to_rename c ds = Some name_dict →
  calculate_indices (Some i) (Some c) custom_varname ds
  = match index_array f name_dict ds with
    | Ok a =>
        let ds' := <[output_band_name custom_varname i := a]> ds in
        (Ok ds', ds')
    | Raise (AttributeError _) => (Raise (ValueError (msg_missing_bands i)), ds)
    | Raise e => (Raise e, ds)
    end.
Proof.
  intros Hi Hc. unfold calculate_indices. cbn [mbind option_bind].
  rewrite Hi.
  unfold bands_to_rename in Hc.
  repeat match type of Hc with
         | (if ?b then _ else _) = _ => destruct b
         end;
    simplify_eq; unfold index_array;
    cbv [mbind mret M_bind M_ret result_bind self pure raise setitem
         try_except_AttributeError];
    (destruct (rename ds _) as [renamed|[msg|name]]; [|reflexivity..]);
    destruct (f _) as [a|[msg|name]]; reflexivity.
Qed.

Lemma index_array_nil (f : Formula F) ds :
  index_array f [] ds = f (ds_truediv ds 1000.0).
Proof. unfold index_array. by rewrite rename_nil. Qed.

Lemma output_band_name_None i : output_band_name None i = i.
Proof. reflexivity. Qed.

Lemma output_band_name_Some n i :
  output_band_name (Some n) i = if decide (n = "") then i else n.
Proof. by destruct n. Qed.

(** A call that returns has a registered index and a valid collection, has
    computed an array and has attached it; it returns the caller's own
    dataset. *)
Lemma calculate_indices_Ok_inv index collection custom_varname ds r ds' :
  calculate_indices index collection custom_varname ds = (Ok r, ds') →
  ∃ i (f : Formula F) c name_dict a,
    index = Some i ∧ collection = Some c ∧
    index_dict !! i = Some f ∧ bands_to_rename c ds = Some name_dict ∧
    index_array f name_dict ds = Ok a ∧
    ds' = <[output_band_name custom_varname i := a]> ds ∧ r = ds'.
Proof.
  destruct index as [i|];
    [|by rewrite calculate_indices_no_index].
  destruct (index_dict (F := F) !! i) as [f|] eqn:Hi;
    [|by rewrite calculate_indices_invalid_index].
  destruct collection as [c|];
    [|by rewrite (calculate_indices_no_collection i f)].
  destruct (bands_to_rename c ds) as [name_dict|] eqn:Hc;
    [|by rewrite (calculate_indices_invalid_collection i f)].
  rewrite (calculate_indices_valid i f c name_dict) by done.
  destruct (index_array f name_dict ds) as [a|[msg|name]] eqn:Ha;
    [|done..].
  simpl. intros [= <- <-]. by exists i, f, c, name_dict, a.
Qed.

(** A call returns when the renaming succeeds and the renamed dataset has
    the bands the recipe reads. *)
Lemma calculate_indices_Ok i (f : Formula F) c name_dict renamed
    custom_varname ds :
  index_dict !! i = Some f →
  bands_to_rename c ds = Some name_dict →
  rename ds name_dict = Ok renamed →
  (∀ b, b ∈ index_bands i → is_Some (renamed !! b)) →
  ∃ a, f (ds_truediv renamed 1000.0) = Ok a ∧
       calculate_indices (Some i) (Some c) custom_varname ds
       = (Ok (<[output_band_name custom_varname i := a]> ds),
          <[output_band_name custom_varname i := a]> ds).
Proof.
  intros Hf Hc Hren Hbands.
  destruct (index_func_Ok i f (ds_truediv renamed 1000.0) Hf) as [a Ha].
  { intros b Hb. rewrite lookup_ds_truediv.
    destruct (Hbands b Hb) as [x ->]. by eexists. }
  exists a. split; [done|].
  rewrite (calculate_indices_valid i f c name_dict) by done.
  unfold index_array. rewrite Hren. cbn [mbind result_bind].
  by rewrite Ha.
Qed.

Lemma calculate_indices_Raise_inv index collection custom_varname ds e ds' :
  calculate_indices index collection custom_varname ds = (Raise e, ds') →
  ds' = ds.
Proof.
  destruct index as [i|];
    [|rewrite calculate_indices_no_index; congruence].
  destruct (index_dict (F := F) !! i) as [f|] eqn:Hi;
    [|rewrite calculate_indices_invalid_index by done; congruence].
  destruct collection as [c|];
    [|rewrite (calculate_indices_no_collection i f) by done; congruence].
  destruct (bands_to_rename c ds) as [name_dict|] eqn:Hc;
    [|rewrite (calculate_indices_invalid_collection i f) by done;
      congruence].
  rewrite (calculate_indices_valid i f c name_dict) by done.
  destruct (index_array f name_dict ds) as [a|[msg|name]];
    simpl; congruence.
Qed.

End properties.

(** Looking a code up in the registry. *)
Ltac registry_lookup :=
  apply index_dict_lookup_Some; unfold index_list;
  repeat first [apply list_elem_of_here | apply list_elem_of_further].

(** * The index evaluator *)

Section evaluator.
Context {F : Type} `{Num F}.
Implicit Types (ds : Dataset F) (a : DataArray F).

(** ** Validation *)

(** C4: a call without [index] raises the missing-index error and a call
    whose [index] is not one of the twenty registered codes raises the
    unknown-index error, whatever [collection] is; with a registered
    index, a call without [collection] raises the missing-collection error
    and a call whose [collection] is not one of the three identifiers
    raises the unknown-collection error.  Each of them is raised for every
    dataset, also for one that could not be renamed or evaluated, and
    leaves it untouched.  The errors are [ValueError]s told apart by
    their messages. *)
Theorem validation_errors ds custom_varname :
  length index_names = 20 ∧
  (∀ i, msg_no_index ≠ msg_invalid_index i) ∧
  (∀ c, msg_no_collection ≠ msg_invalid_collection c) ∧
  (∀ collection,
     calculate_indices None collection custom_varname ds
     = (Raise (ValueError msg_no_index), ds)) ∧
  (∀ i collection,
     i ∉ index_names →
     calculate_indices (Some i) collection custom_varname ds
     = (Raise (ValueError (msg_invalid_index i)), ds)) ∧
  (∀ i,
     i ∈ index_names →
     calculate_indices (Some i) None custom_varname ds
     = (Raise (ValueError msg_no_collection), ds)) ∧
  (∀ i c,
     i ∈ index_names → c ∉ collection_names →
     calculate_indices (Some i) (Some c) custom_varname ds
     = (Raise (ValueError (msg_invalid_collection c)), ds)).
Proof.
  split; [reflexivity|]. split; [apply msg_index_distinct|].
  split; [apply msg_collection_distinct|]. split; [|split; [|split]].
  - intros collection. apply calculate_indices_no_index.
  - intros i collection Hi. apply calculate_indices_invalid_index.
    by apply index_dict_lookup_None.
  - intros i [f Hf]%(index_dict_registered (F := F)).
    by apply (calculate_indices_no_collection i f).
  - intros i c [f Hf]%(index_dict_registered (F := F)) Hc.
    apply (calculate_indices_invalid_collection i f); [done|].
    by apply bands_to_rename_None.
Qed.

(** C10: whenever a call raises, whichever of its errors it is, the
    caller's dataset is afterwards what it was before the call. *)
Theorem error_leaves_dataset_unchanged
  index collection custom_varname ds e ds' :
  calculate_indices index collection custom_varname ds = (Raise e, ds') →
  ds' = ds.
Proof. apply calculate_indices_Raise_inv. Qed.

(** ** A band that is missing *)

(** C5, as the code has it: with a registered index and a valid collection,
    when the renaming succeeds and a band the recipe reads is absent from
    the renamed dataset, the call raises one [ValueError] and leaves the
    dataset untouched.  Its message names the requested index and says that
    the bands may vary depending on the collection; it does not name the
    requested collection. *)
Theorem missing_band_error
  i (f : Formula F) c name_dict renamed b custom_varname ds :
  index_dict !! i = Some f →
  bands_to_rename c ds = Some name_dict →
  rename ds name_dict = Ok renamed →
  b ∈ index_bands i → renamed !! b = None →
  calculate_indices (Some i) (Some c) custom_varname ds
  = (Raise (ValueError (msg_missing_bands i)), ds) ∧
  mentions (msg_missing_bands i) i = true ∧
  mentions (msg_missing_bands i)
    "These bands may vary depending on the `collection`" = true ∧
  mentions (msg_missing_bands i) c = false.
Proof.
  intros Hf Hc Hren Hb Hnone.
  split; [|split; [|split]].
  - rewrite (calculate_indices_valid i f c name_dict) by done.
    unfold index_array. rewrite Hren. cbn [mbind result_bind].
    destruct (index_func_missing i f (ds_truediv renamed 1000.0) b)
      as [b' ->]; [done..| |done].
    by rewrite lookup_ds_truediv, Hnone.
  - assert (Hall : Forall (λ i, mentions (msg_missing_bands i) i = true)
                          index_names)
      by (apply (bool_decide_unpack _); by vm_compute).
    rewrite Forall_forall in Hall. apply Hall.
    apply (index_dict_registered (F := F)). by eexists.
  - assert (Hall : Forall (λ i, mentions (msg_missing_bands i)
                     "These bands may vary depending on the `collection`"
                     = true) index_names)
      by (apply (bool_decide_unpack _); by vm_compute).
    rewrite Forall_forall in Hall. apply Hall.
    apply (index_dict_registered (F := F)). by eexists.
  - assert (Hall : Forall (λ i, Forall (λ c,
                     mentions (msg_missing_bands i) c = false)
                     collection_names) index_names)
      by (apply (bool_decide_unpack _); by vm_compute).
    rewrite Forall_forall in Hall.
    assert (Hi : i ∈ index_names)
      by (apply (index_dict_registered (F := F)); by eexists).
    specialize (Hall i Hi). rewrite Forall_forall in Hall. apply Hall.
    apply (bands_to_rename_is_Some c ds). by eexists.
Qed.

(** ** The returned dataset *)

(** C6, as the code has it: for a registered index and a valid collection,
    when the renaming succeeds and the renamed dataset has the bands the
    recipe reads, the call returns the caller's dataset with one band set
    to the computed array and every other band as it was, names and values;
    the band is named [custom_varname] when that is given and not empty,
    and [index] otherwise. *)
Theorem returned_dataset_frame
  i (f : Formula F) c name_dict renamed custom_varname ds :
  index_dict !! i = Some f →
  bands_to_rename c ds = Some name_dict →
  rename ds name_dict = Ok renamed →
  (∀ b, b ∈ index_bands i → is_Some (renamed !! b)) →
  let out := match custom_varname with
             | Some n => if decide (n = "") then i else n
             | None => i
             end in
  ∃ a ds',
    calculate_indices (Some i) (Some c) custom_varname ds = (Ok ds', ds') ∧
    f (ds_truediv renamed 1000.0) = Ok a ∧
    ds' !! out = Some a ∧
    (∀ b, b ≠ out → ds' !! b = ds !! b) ∧
    dom ds' = {[out]} ∪ dom ds.
Proof.
  intros Hf Hc Hren Hbands out.
  destruct (calculate_indices_Ok i f c name_dict renamed custom_varname ds)
    as (a & Ha & Hcall); [done..|].
  assert (Hout : output_band_name custom_varname i = out).
  { subst out. destruct custom_varname as [n|]; [|done].
    apply output_band_name_Some. }
  rewrite Hout in Hcall.
  exists a, (<[out := a]> ds). split; [done|]. split; [done|].
  split; [apply lookup_insert_eq|].
  split; [|apply dom_insert_L].
  intros b Hb. by apply lookup_insert_ne.
Qed.

(** ** Native names *)

(** C7: a [ga_landsat_3] dataset whose variables are exactly the six
    [nbar_*] names is renamed with the six [nbar_*] entries of the
    dictionary only, the renaming succeeds and yields every canonical band,
    and the call returns for every registered index. *)
Theorem nbar_only_ga_landsat_3 i custom_varname ds :
  dom ds = list_to_set ["nbar_red"; "nbar_green"; "nbar_blue"; "nbar_nir";
                        "nbar_swir_1"; "nbar_swir_2"] →
  i ∈ index_names →
  bands_to_rename "ga_landsat_3" ds
  = Some [("nbar_red", "red"); ("nbar_green", "green");
          ("nbar_blue", "blue"); ("nbar_nir", "nir");
          ("nbar_swir_1", "swir1"); ("nbar_swir_2", "swir2")] ∧
  ∃ renamed a,
    rename ds (present_bands bandnames_dict_ga_landsat_3 ds) = Ok renamed ∧
    (∀ b, b ∈ canonical_names → is_Some (renamed !! b)) ∧
    calculate_indices (Some i) (Some "ga_landsat_3") custom_varname ds
    = (Ok (<[output_band_name custom_varname i := a]> ds),
       <[output_band_name custom_varname i := a]> ds).
Proof.
  intros Hdom [f Hf]%(index_dict_registered (F := F)).
  set (keys := ["nbar_red"; "nbar_green"; "nbar_blue"; "nbar_nir";
                "nbar_swir_1"; "nbar_swir_2"]) in *.
  set (name_dict := [("nbar_red", "red"); ("nbar_green", "green");
                     ("nbar_blue", "blue"); ("nbar_nir", "nir");
                     ("nbar_swir_1", "swir1"); ("nbar_swir_2", "swir2")]).
  assert (Hvars : ∀ k, in_variables k ds ↔ k ∈ keys).
  { intros k. unfold in_variables.
    by rewrite <- elem_of_dom, Hdom, elem_of_list_to_set. }
  assert (Hnd : present_bands bandnames_dict_ga_landsat_3 ds = name_dict).
  { rewrite present_bands_dom, Hdom. by vm_compute. }
  assert (Hc : bands_to_rename "ga_landsat_3" ds = Some name_dict).
  { unfold bands_to_rename. simpl. by rewrite Hnd. }
  split; [exact Hc|]. rewrite Hnd.
  destruct (rename_Ok ds name_dict) as [renamed Hren].
  { intros k Hk. apply Hvars. revert k Hk. apply Forall_forall.
    apply (bool_decide_unpack _). by vm_compute. }
  { intros k1 k2 Hk1%Hvars Hk2%Hvars.
    assert (Hinj : Forall (λ k1, Forall (λ k2,
              new_name name_dict k1 = new_name name_dict k2 → k1 = k2)
              keys) keys)
      by (apply (bool_decide_unpack _); by vm_compute).
    rewrite Forall_forall in Hinj. specialize (Hinj k1 Hk1).
    rewrite Forall_forall in Hinj. by apply Hinj. }
  assert (Hcanon : ∀ b, b ∈ canonical_names → is_Some (renamed !! b)).
  { intros b Hb.
    assert (Hsurj : Forall (λ b, Exists (λ k, new_name name_dict k = b) keys)
                           canonical_names)
      by (apply (bool_decide_unpack _); by vm_compute).
    rewrite Forall_forall in Hsurj. specialize (Hsurj b Hb).
    apply Exists_exists in Hsurj as (k & Hk & Hname).
    apply Hvars in Hk as [x Hx]. exists x.
    apply (lookup_rename ds name_dict renamed b x Hren). by exists k. }
  destruct (calculate_indices_Ok i f "ga_landsat_3" name_dict renamed
              custom_varname ds) as (a & _ & Hcall); [done..| |].
  { intros b Hb. apply Hcanon. by apply (index_bands_canonical i). }
  by exists renamed, a.
Qed.

(** C3, as the code has it: the division by 1000.0 is applied under every
    collection, [ga_landsat_2] included.  A [ga_landsat_3] dataset [w]
    whose renaming yields the canonical dataset [v], that is, one holding
    the same values under native names, gives the same outcome as [v] under
    [ga_landsat_2]: the same array is attached, or the same exception is
    raised. *)
Theorem same_values_under_native_names i custom_varname (v w : Dataset F) :
  rename w (present_bands bandnames_dict_ga_landsat_3 w) = Ok v →
  let out := output_band_name custom_varname i in
  (∀ a,
     calculate_indices (Some i) (Some "ga_landsat_2") custom_varname v
     = (Ok (<[out := a]> v), <[out := a]> v)
     ↔ calculate_indices (Some i) (Some "ga_landsat_3") custom_varname w
       = (Ok (<[out := a]> w), <[out := a]> w)) ∧
  (∀ e,
     calculate_indices (Some i) (Some "ga_landsat_2") custom_varname v
     = (Raise e, v)
     ↔ calculate_indices (Some i) (Some "ga_landsat_3") custom_varname w
       = (Raise e, w)).
Proof.
  intros Hren out. subst out.
  destruct (index_dict (F := F) !! i) as [f|] eqn:Hf.
  - rewrite (calculate_indices_valid i f "ga_landsat_2" [] custom_varname v
               Hf eq_refl).
    rewrite (calculate_indices_valid i f "ga_landsat_3" _ custom_varname w
               Hf eq_refl).
    rewrite index_array_nil. unfold index_array. rewrite Hren.
    cbn [mbind result_bind].
    destruct (f (ds_truediv v 1000.0)) as [a'|[msg|name]]; simpl.
    + split; [|by split].
      intros a. split; intros [= ->%insert_value_inj]; done.
    + split; [by split|]. intros e. split; intros [= <-]; done.
    + split; [by split|]. intros e. split; intros [= <-]; done.
  - rewrite !calculate_indices_invalid_index by done.
    split; [by split|]. intros e. split; intros [= <-]; done.
Qed.

(** ** Calling twice *)

(** C8, as the code has it: after a call that returned, a second call with
    the same arguments on the same dataset replaces the band attached by
    the first with the array it computes itself, and the dataset has the
    same band names as after the first call, provided the renaming of the
    second call succeeds: it does with the default name, with collection
    [ga_landsat_2], and with any output name that is neither a canonical
    band name nor a native name of the collection. *)
Theorem second_call_overwrites i c custom_varname ds r1 ds1 :
  calculate_indices (Some i) (Some c) custom_varname ds = (Ok r1, ds1) →
  let out := output_band_name custom_varname i in
  (custom_varname = None
   ∨ c = "ga_landsat_2"
   ∨ ((out ∉ canonical_names) ∧ (out ∉ (bandnames_dict_of c).*1))
   ∨ ∃ name_dict renamed,
       bands_to_rename c ds1 = Some name_dict
       ∧ rename ds1 name_dict = Ok renamed) →
  ∃ (f : Formula F) name_dict1 a1 a2,
    ds1 = <[out := a1]> ds ∧
    index_dict !! i = Some f ∧
    bands_to_rename c ds1 = Some name_dict1 ∧
    index_array f name_dict1 ds1 = Ok a2 ∧
    calculate_indices (Some i) (Some c) custom_varname ds1
    = (Ok (<[out := a2]> ds), <[out := a2]> ds) ∧
    <[out := a2]> ds !! out = Some a2 ∧
    dom (<[out := a2]> ds) = dom ds1.
Proof.
  intros Hcall out Hcase.
  destruct (calculate_indices_Ok_inv _ _ _ _ _ _ Hcall)
    as (i' & f & c' & nd & a1 & [= <-] & [= <-] & Hf & Hc & Ha1 & Hds1 & _).
  fold out in Hds1.
  assert (Hnd : nd = present_bands (bandnames_dict_of c) ds).
  { pose proof (bands_to_rename_Some c ds nd Hc ds) as Hc'. congruence. }
  assert (Hc1 : bands_to_rename c ds1 = Some (present_bands (bandnames_dict_of c) ds1))
    by apply (bands_to_rename_Some c ds nd Hc).
  unfold index_array in Ha1.
  destruct (rename ds nd) as [renamed|] eqn:Hren; [|done].
  cbn [mbind result_bind] in Ha1.
  destruct (rename_Ok_inv ds nd renamed Hren) as [_ Hinj].
  assert (Hvars1 : ∀ k, in_variables k ds1 ↔ k = out ∨ in_variables k ds).
  { intros k. unfold in_variables. rewrite Hds1.
    rewrite lookup_insert_is_Some. split.
    - intros [->|[_ ?]]; [by left|by right].
    - destruct (decide (out = k)) as [->|]; [by left|].
      intros [->|?]; [done|by right]. }
  assert (Hname : ∀ k, in_variables k ds → new_name nd k = new_name (bandnames_dict_of c) k).
  { intros k Hk. rewrite Hnd, new_name_present_bands. by rewrite decide_True. }
  assert (Hname1 : ∀ k, in_variables k ds1 →
                        new_name (present_bands (bandnames_dict_of c) ds1) k = new_name (bandnames_dict_of c) k).
  { intros k Hk. rewrite new_name_present_bands. by rewrite decide_True. }
  (* the renaming of the second call *)
  assert (Hfresh : out ∉ canonical_names → out ∉ (bandnames_dict_of c).*1 →
                   ∃ renamed1, rename ds1 (present_bands (bandnames_dict_of c) ds1)
                               = Ok renamed1).
  { intros Hcanon Hnative. apply rename_Ok; [apply present_bands_keys|].
    assert (Hout : new_name (bandnames_dict_of c) out = out).
    { destruct (new_name_bandnames_dict c out) as [?|[? _]]; done. }
    assert (Hother : ∀ k, k ≠ out → new_name (bandnames_dict_of c) k ≠ out).
    { intros k Hk Heq.
      destruct (new_name_bandnames_dict c k) as [Hsame|[_ Hcan]];
        [congruence|]. by rewrite Heq in Hcan. }
    intros k1 k2 Hk1 Hk2. rewrite !Hname1 by done.
    apply Hvars1 in Hk1, Hk2.
    destruct (decide (k1 = out)) as [->|Hne1],
             (decide (k2 = out)) as [->|Hne2]; [done| | |].
    - rewrite Hout. intros Heq. by destruct (Hother k2 Hne2).
    - rewrite Hout. intros Heq. by destruct (Hother k1 Hne1).
    - destruct Hk1 as [?|Hk1], Hk2 as [?|Hk2]; [done..|].
      rewrite <- !Hname by done. by apply Hinj. }
  assert (Hren1 : ∃ renamed1, rename ds1 (present_bands (bandnames_dict_of c) ds1)
                              = Ok renamed1).
  { destruct Hcase as [->|[->|[[Hcanon Hnative]|(nd1 & renamed1 & Hc1' & ?)]]].
    - assert (Hi : i ∈ index_names)
        by (apply (index_dict_registered (F := F)); by eexists).
      assert (Hall : Forall (λ i, (i ∉ canonical_names)
                               ∧ (i ∉ bandnames_dict_ga_landsat_3.*1)
                               ∧ (i ∉ bandnames_dict_ga_sentinel2_1.*1))
                            index_names)
        by (apply (bool_decide_unpack _); by vm_compute).
      rewrite Forall_forall in Hall. destruct (Hall i Hi) as (? & ? & ?).
      apply Hfresh; [done|]. unfold bandnames_dict_of.
      repeat match goal with
             | |- context [String.eqb c ?s] => destruct (String.eqb c s)
             end; [done..|apply not_elem_of_nil].
    - exists ds1. apply rename_nil.
    - by apply Hfresh.
    - exists renamed1. congruence. }
  destruct Hren1 as [renamed1 Hren1].
  (* the bands the recipe reads are still there *)
  assert (Hbands : ∀ b, b ∈ index_bands i → is_Some (renamed1 !! b)).
  { intros b Hb.
    pose proof (index_func_Ok_inv i f _ a1 b Hf Ha1 Hb) as Hsome.
    rewrite lookup_ds_truediv, fmap_is_Some in Hsome.
    destruct Hsome as [x Hx].
    apply (lookup_rename ds nd renamed b x Hren) in Hx as (k & Hk & Hkb).
    assert (Hk1 : in_variables k ds1) by (apply Hvars1; right; by eexists).
    destruct Hk1 as [y Hy]. exists y.
    apply (lookup_rename ds1 _ renamed1 b y Hren1). exists k.
    split; [done|]. rewrite Hname1 by by eexists.
    rewrite <- Hname by by eexists. done. }
  destruct (calculate_indices_Ok i f c _ renamed1 custom_varname ds1
              Hf Hc1 Hren1 Hbands) as (a2 & Ha2 & Hcall2).
  fold out in Hcall2.
  exists f, (present_bands (bandnames_dict_of c) ds1), a1, a2.
  split; [done|]. split; [done|]. split; [done|].
  split; [unfold index_array; rewrite Hren1; exact Ha2|].
  split; [by rewrite Hcall2, Hds1, insert_insert_eq|].
  split; [apply lookup_insert_eq|].
  rewrite Hds1, !dom_insert_L. done.
Qed.

(** ** Recipes *)

(** C1: on a dataset with the canonical band names, a call with index
    [NDVI] and collection [ga_landsat_2] returns the dataset with a band
    [NDVI] that is, pixel by pixel, (nir - red) / (nir + red) of the band
    values divided by 1000.0; the recipe is evaluated on the dataset in
    which every band has been divided by 1000.0. *)
Theorem ndvi_ga_landsat_2 ds nir red :
  ds !! "nir" = Some nir → ds !! "red" = Some red →
  let k := scalar (flit 1000.0) in
  let nir' := broadcast fdiv nir k in
  let red' := broadcast fdiv red k in
  let ndvi := broadcast fdiv (broadcast fsub nir' red')
                             (broadcast fadd nir' red') in
  calculate_indices (Some "NDVI") (Some "ga_landsat_2") None ds
  = (Ok (<["NDVI" := ndvi]> ds), <["NDVI" := ndvi]> ds) ∧
  (∀ i x y,
     at_pixel nir i = Some x → at_pixel red i = Some y →
     at_pixel ndvi i
     = Some (fdiv (fsub (fdiv x (flit 1000.0)) (fdiv y (flit 1000.0)))
                  (fadd (fdiv x (flit 1000.0)) (fdiv y (flit 1000.0))))) ∧
  (∃ f : Formula F,
     index_dict !! "NDVI" = Some f ∧
     index_array f [] ds = f (ds_truediv ds 1000.0) ∧
     f (ds_truediv ds 1000.0) = Ok ndvi) ∧
  (∀ b, ds_truediv ds 1000.0 !! b = (λ a, broadcast fdiv a k) <$> ds !! b).
Proof.
  intros Hnir Hred k nir' red' ndvi.
  assert (Hf : index_dict (F := F) !! "NDVI" = Some _) by registry_lookup.
  assert (Hdiv : ∀ b, ds_truediv ds 1000.0 !! b
                      = (λ a, broadcast fdiv a k) <$> ds !! b)
    by (intros b; apply lookup_ds_truediv).
  assert (Hrun : index_array (λ ds0 : Dataset F,
                    binop fdiv
                      (binop fsub (getattr ds0 "nir") (getattr ds0 "red"))
                      (binop fadd (getattr ds0 "nir") (getattr ds0 "red")))
                   [] ds = Ok ndvi).
  { unfold index_array. rewrite rename_nil. cbn [mbind result_bind].
    unfold getattr. by rewrite !Hdiv, Hnir, Hred. }
  split; [|split; [|split]].
  - rewrite (calculate_indices_valid _ _ "ga_landsat_2" [] None ds Hf eq_refl).
    by rewrite Hrun.
  - intros i x y Hx Hy. subst ndvi nir' red' k.
    by repeat (apply at_pixel_broadcast).
  - eexists. split; [exact Hf|].
    split; [exact (index_array_nil _ ds)|].
    exact (eq_trans (eq_sym (index_array_nil _ ds)) Hrun).
  - exact Hdiv.
Qed.

(** C2: the recipe registered as [AWEI_ns] computes, pixel by pixel,
    4 * (green - swir1) - (2.5 * nir * +2.75 * swir2) as written, the
    products taken from left to right; over exact numbers that is
    4 (green - swir1) - (2.5 nir (2.75 swir2)) and
    4 (green - swir1) - 6.875 nir swir2, and it is not the sum
    2.5 nir + 2.75 swir2 of the literature. *)
Theorem awei_ns_literal ds green swir1 nir swir2 :
  ds !! "green" = Some green → ds !! "swir1" = Some swir1 →
  ds !! "nir" = Some nir → ds !! "swir2" = Some swir2 →
  ∃ (f : Formula F) a,
    index_dict !! "AWEI_ns" = Some f ∧ f ds = Ok a ∧
    (∀ i g s1 n s2,
       at_pixel green i = Some g → at_pixel swir1 i = Some s1 →
       at_pixel nir i = Some n → at_pixel swir2 i = Some s2 →
       at_pixel a i = Some (awei_ns_pixel g s1 n s2)) ∧
    (∀ g s1 n s2 : Qc,
       awei_ns_pixel g s1 n s2
       = (Q2Qc 4 * (g - s1) - Q2Qc 2.5 * n * (Q2Qc 2.75 * s2))%Qc ∧
       awei_ns_pixel g s1 n s2
       = (Q2Qc 4 * (g - s1) - Q2Qc 6.875 * n * s2)%Qc) ∧
    awei_ns_pixel (Q2Qc 0) (Q2Qc 0) (Q2Qc 1) (Q2Qc 1)
    ≠ awei_ns_textbook (Q2Qc 0) (Q2Qc 0) (Q2Qc 1) (Q2Qc 1) ∧
    awei_ns_pixel 0%float 0%float 1%float 1%float
    ≠ awei_ns_textbook 0%float 0%float 1%float 1%float.
Proof.
  intros Hg Hs1 Hn Hs2. eexists _, _.
  split; [registry_lookup|]. split.
  { unfold getattr. rewrite Hg, Hs1, Hn, Hs2. reflexivity. }
  split; [|split; [|split]].
  - intros i g s1 n s2 Hig His1 Hin His2.
    unfold awei_ns_pixel. repeat (apply at_pixel_broadcast); done.
  - intros g s1 n s2. unfold awei_ns_pixel. simpl.
    assert (Hk : Q2Qc 6.875 = (Q2Qc 2.5 * Q2Qc 2.75)%Qc)
      by (by apply Qc_is_canon).
    rewrite Hk. split; ring.
  - intros Heq. apply (f_equal (λ q : Qc, Qnum (this q))) in Heq.
    vm_compute in Heq. discriminate.
  - intros Heq.
    apply (f_equal (λ x : float, PrimFloat.ltb x (-6)%float)) in Heq.
    vm_compute in Heq. discriminate.
Qed.

(** C9: [NDSI] and [MNDWI] are registered with one and the same recipe,
    (green - swir1) / (green + swir1), so for every dataset, collection and
    [custom_varname] a call for one attaches an array exactly when a call
    for the other attaches that same array. *)
Theorem ndsi_mndwi_same_array :
  ∃ f : Formula F,
    index_dict !! "NDSI" = Some f ∧ index_dict !! "MNDWI" = Some f ∧
    (∀ ds green swir1,
       ds !! "green" = Some green → ds !! "swir1" = Some swir1 →
       f ds = Ok (broadcast fdiv (broadcast fsub green swir1)
                                 (broadcast fadd green swir1))) ∧
    (∀ collection custom_varname ds a,
       let ds_ndsi := <[output_band_name custom_varname "NDSI" := a]> ds in
       let ds_mndwi := <[output_band_name custom_varname "MNDWI" := a]> ds in
       calculate_indices (Some "NDSI") collection custom_varname ds
       = (Ok ds_ndsi, ds_ndsi)
       ↔ calculate_indices (Some "MNDWI") collection custom_varname ds
         = (Ok ds_mndwi, ds_mndwi)).
Proof.
  eexists. split; [registry_lookup|]. split; [registry_lookup|].
  assert (Hn : index_dict (F := F) !! "NDSI" = Some _) by registry_lookup.
  assert (Hm : index_dict (F := F) !! "MNDWI" = Some _) by registry_lookup.
  split.
  - intros ds green swir1 Hg Hs. unfold getattr. by rewrite Hg, Hs.
  - intros collection custom_varname ds a ds_ndsi ds_mndwi.
    subst ds_ndsi ds_mndwi.
    assert (Hinj : ∀ name a', <[name := a']> ds = <[name := a]> ds → a' = a).
    { intros name a' Heq. apply (f_equal (.!! name)) in Heq.
      rewrite !lookup_insert_eq in Heq. congruence. }
    split; intros Hcall.
    + destruct (calculate_indices_Ok_inv _ _ _ _ _ _ Hcall)
        as (i & f & c & nd & a' & [= <-] & -> & Hf & Hc & Ha & Hds & _).
      rewrite Hn in Hf. injection Hf as <-.
      symmetry in Hds. apply Hinj in Hds as ->.
      rewrite (calculate_indices_valid _ _ c nd _ _ Hm Hc), Ha. done.
    + destruct (calculate_indices_Ok_inv _ _ _ _ _ _ Hcall)
        as (i & f & c & nd & a' & [= <-] & -> & Hf & Hc & Ha & Hds & _).
      rewrite Hm in Hf. injection Hf as <-.
      symmetry in Hds. apply Hinj in Hds as ->.
      rewrite (calculate_indices_valid _ _ c nd _ _ Hn Hc), Ha. done.
Qed.

End evaluator.

(** * The statements on the sample datasets *)

Ltac by_computation := apply (bool_decide_unpack _); vm_compute; exact I.

Lemma validation_errors_witness :
  ("XYZ" ∉ index_names) ∧ ("NDVI" ∈ index_names) ∧
  ("bogus" ∉ collection_names) ∧
  calculate_indices None (Some "bogus") None sample_canonical
  = (Raise (ValueError msg_no_index), sample_canonical) ∧
  calculate_indices (Some "XYZ") None None sample_canonical
  = (Raise (ValueError (msg_invalid_index "XYZ")), sample_canonical) ∧
  calculate_indices (Some "NDVI") None None sample_canonical
  = (Raise (ValueError msg_no_collection), sample_canonical) ∧
  calculate_indices (Some "NDVI") (Some "bogus") None sample_canonical
  = (Raise (ValueError (msg_invalid_collection "bogus")), sample_canonical).
Proof.
  destruct (validation_errors sample_canonical None)
    as (_ & _ & _ & Hnone & Hunknown & Hnocoll & Hbadcoll).
  assert (Hxyz : "XYZ" ∉ index_names) by by_computation.
  assert (Hndvi : "NDVI" ∈ index_names) by by_computation.
  assert (Hbogus : "bogus" ∉ collection_names) by by_computation.
  repeat (split; [assumption|]).
  split; [apply Hnone|]. split; [apply Hunknown, Hxyz|].
  split; [apply Hnocoll, Hndvi|].
  apply Hbadcoll; [exact Hndvi|exact Hbogus].
Defined.

Lemma error_leaves_dataset_unchanged_witness :
  calculate_indices (Some "NDVI") (Some "ga_landsat_3") None sample_no_nir
  = (Raise (ValueError (msg_missing_bands "NDVI")), sample_no_nir) ∧
  sample_no_nir = sample_no_nir.
Proof.
  assert (Hcall :
    calculate_indices (Some "NDVI") (Some "ga_landsat_3") None sample_no_nir
    = (Raise (ValueError (msg_missing_bands "NDVI")), sample_no_nir))
    by (vm_compute; reflexivity).
  split; [exact Hcall|].
  exact (error_leaves_dataset_unchanged _ _ _ _ _ _ Hcall).
Defined.

Lemma ndvi_ga_landsat_2_witness :
  sample_canonical !! "nir" = Some (pixels [3000; 2500]%float) ∧
  sample_canonical !! "red" = Some (pixels [1000; 2000]%float) ∧
  ∃ ndvi,
    calculate_indices (Some "NDVI") (Some "ga_landsat_2") None
      sample_canonical
    = (Ok (<["NDVI" := ndvi]> sample_canonical),
       <["NDVI" := ndvi]> sample_canonical) ∧
    at_pixel ndvi 0 = Some 0.5%float.
Proof.
  assert (Hnir : sample_canonical !! "nir" = Some (pixels [3000; 2500]%float))
    by (vm_compute; reflexivity).
  assert (Hred : sample_canonical !! "red" = Some (pixels [1000; 2000]%float))
    by (vm_compute; reflexivity).
  split; [exact Hnir|]. split; [exact Hred|].
  destruct (ndvi_ga_landsat_2 sample_canonical _ _ Hnir Hred)
    as (Hcall & _).
  eexists. split; [exact Hcall|]. vm_compute. reflexivity.
Defined.

Lemma awei_ns_literal_witness :
  sample_canonical !! "green" = Some (pixels [1500; 1800]%float) ∧
  sample_canonical !! "swir1" = Some (pixels [2000; 2200]%float) ∧
  sample_canonical !! "nir" = Some (pixels [3000; 2500]%float) ∧
  sample_canonical !! "swir2" = Some (pixels [1200; 1500]%float) ∧
  ∃ (f : Formula float) a,
    index_dict !! "AWEI_ns" = Some f ∧ f sample_canonical = Ok a ∧
    at_pixel a 0 = Some (awei_ns_pixel 1500 2000 3000 1200)%float.
Proof.
  assert (Hg : sample_canonical !! "green"
               = Some (pixels [1500; 1800]%float))
    by (vm_compute; reflexivity).
  assert (Hs1 : sample_canonical !! "swir1"
                = Some (pixels [2000; 2200]%float))
    by (vm_compute; reflexivity).
  assert (Hn : sample_canonical !! "nir" = Some (pixels [3000; 2500]%float))
    by (vm_compute; reflexivity).
  assert (Hs2 : sample_canonical !! "swir2"
                = Some (pixels [1200; 1500]%float))
    by (vm_compute; reflexivity).
  repeat (split; [assumption|]).
  destruct (awei_ns_literal sample_canonical _ _ _ _ Hg Hs1 Hn Hs2)
    as (f & a & Hf & Ha & Hpx & _).
  exists f, a. split; [exact Hf|]. split; [exact Ha|].
  by apply Hpx.
Defined.

(** C5 as stated fails: the message of the missing-band error raised for
    collection [ga_landsat_3] does not contain [ga_landsat_3]. *)
Lemma missing_band_message_omits_collection :
  calculate_indices (Some "NDVI") (Some "ga_landsat_3") None sample_no_nir
  = (Raise (ValueError (msg_missing_bands "NDVI")), sample_no_nir) ∧
  mentions (msg_missing_bands "NDVI") "ga_landsat_3" = false.
Proof. split; vm_compute; reflexivity. Qed.

Lemma missing_band_error_witness :
  let name_dict := [("nbart_red", "red"); ("nbart_green", "green")] in
  let renamed : Dataset float :=
    list_to_map [("red", pixels [1000; 2000]);
                 ("green", pixels [1500; 1800])]%float in
  index_dict (F := float) !! "NDVI"
  = Some (λ ds, binop fdiv
                  (binop fsub (getattr ds "nir") (getattr ds "red"))
                  (binop fadd (getattr ds "nir") (getattr ds "red"))) ∧
  bands_to_rename "ga_landsat_3" sample_no_nir = Some name_dict ∧
  rename sample_no_nir name_dict = Ok renamed ∧
  "nir" ∈ index_bands "NDVI" ∧ renamed !! "nir" = None ∧
  calculate_indices (Some "NDVI") (Some "ga_landsat_3") None sample_no_nir
  = (Raise (ValueError (msg_missing_bands "NDVI")), sample_no_nir).
Proof.
  intros name_dict renamed.
  assert (Hf : index_dict (F := float) !! "NDVI" = Some _)
    by registry_lookup.
  assert (Hc : bands_to_rename "ga_landsat_3" sample_no_nir = Some name_dict)
    by (vm_compute; reflexivity).
  assert (Hren : rename sample_no_nir name_dict = Ok renamed)
    by (vm_compute; reflexivity).
  assert (Hb : "nir" ∈ index_bands "NDVI") by by_computation.
  assert (Hnone : renamed !! "nir" = None) by (vm_compute; reflexivity).
  repeat (split; [assumption|]).
  exact (proj1 (missing_band_error _ _ _ _ _ _ None _ Hf Hc Hren Hb Hnone)).
Defined.

(** C3 as stated fails: for the index [SAVI], the reflectances [v] under
    [ga_landsat_2] and the digital numbers [1000 v] under the [nbart_*]
    names of [ga_landsat_3] give different arrays, 0.0015 (rounded) against
    0.5, since the first call divides [v] by 1000.0 as well. *)
Lemma rescaling_not_compensated :
  let v := sample_reflectance in
  let w := as_digital_numbers (take 6 bandnames_dict_ga_landsat_3) v in
  let run_v := calculate_indices (Some "SAVI") (Some "ga_landsat_2") None v in
  let run_w := calculate_indices (Some "SAVI") (Some "ga_landsat_3") None w in
  w !! "nbart_nir" = Some (pixels [750]%float) ∧
  w !! "nbart_red" = Some (pixels [250]%float) ∧
  run_v.1 = Ok run_v.2 ∧ run_w.1 = Ok run_w.2 ∧
  run_w.2 !! "SAVI" = Some (pixels [0.5]%float) ∧
  run_v.2 !! "SAVI" ≠ run_w.2 !! "SAVI".
Proof.
  intros v w run_v run_w.
  repeat (split; [vm_compute; reflexivity|]).
  intros Heq.
  apply (f_equal (λ o : option (DataArray float),
                    match o ≫= (λ a, at_pixel a 0) with
                    | Some x => PrimFloat.ltb x 0.25
                    | None => false
                    end)) in Heq.
  vm_compute in Heq. discriminate.
Qed.

Lemma same_values_under_native_names_witness :
  rename sample_nbart (present_bands bandnames_dict_ga_landsat_3 sample_nbart)
  = Ok sample_canonical ∧
  (∀ a,
     calculate_indices (Some "NDVI") (Some "ga_landsat_2") None
       sample_canonical
     = (Ok (<["NDVI" := a]> sample_canonical),
        <["NDVI" := a]> sample_canonical)
     ↔ calculate_indices (Some "NDVI") (Some "ga_landsat_3") None
         sample_nbart
       = (Ok (<["NDVI" := a]> sample_nbart), <["NDVI" := a]> sample_nbart)).
Proof.
  assert (Hren : rename sample_nbart
                   (present_bands bandnames_dict_ga_landsat_3 sample_nbart)
                 = Ok sample_canonical) by (vm_compute; reflexivity).
  split; [exact Hren|].
  exact (proj1 (same_values_under_native_names "NDVI" None
                  sample_canonical sample_nbart Hren)).
Defined.

(** C6 as stated fails: with the empty string as [custom_varname] the band
    attached is named after the index, and no band has the empty name. *)
Lemma empty_custom_varname_names_index :
  let run := calculate_indices (Some "NDVI") (Some "ga_landsat_2") (Some "")
               sample_canonical in
  run.1 = Ok run.2 ∧
  run.2 !! "" = None ∧
  sample_canonical !! "NDVI" = None ∧
  ∃ ndvi, run.2 !! "NDVI" = Some ndvi ∧ at_pixel ndvi 0 = Some 0.5%float.
Proof.
  intros run. repeat (split; [vm_compute; reflexivity|]).
  eexists. split; vm_compute; reflexivity.
Qed.

Lemma returned_dataset_frame_witness :
  let name_dict := take 6 bandnames_dict_ga_landsat_3 in
  index_dict (F := float) !! "NDVI"
  = Some (λ ds, binop fdiv
                  (binop fsub (getattr ds "nir") (getattr ds "red"))
                  (binop fadd (getattr ds "nir") (getattr ds "red"))) ∧
  bands_to_rename "ga_landsat_3" sample_nbart = Some name_dict ∧
  rename sample_nbart name_dict = Ok sample_canonical ∧
  (∀ b, b ∈ index_bands "NDVI" → is_Some (sample_canonical !! b)) ∧
  ∃ a ds',
    calculate_indices (Some "NDVI") (Some "ga_landsat_3") (Some "veg")
      sample_nbart = (Ok ds', ds') ∧
    ds' !! "veg" = Some a ∧
    (∀ b, b ≠ "veg" → ds' !! b = sample_nbart !! b) ∧
    dom ds' = {["veg"]} ∪ dom sample_nbart.
Proof.
  intros name_dict.
  assert (Hf : index_dict (F := float) !! "NDVI" = Some _)
    by registry_lookup.
  assert (Hc : bands_to_rename "ga_landsat_3" sample_nbart = Some name_dict)
    by (vm_compute; reflexivity).
  assert (Hren : rename sample_nbart name_dict = Ok sample_canonical)
    by (vm_compute; reflexivity).
  assert (Hbands : ∀ b, b ∈ index_bands "NDVI" →
                        is_Some (sample_canonical !! b)).
  { apply Forall_forall. by_computation. }
  split; [exact Hf|]. split; [exact Hc|]. split; [exact Hren|].
  split; [exact Hbands|].
  destruct (returned_dataset_frame _ _ _ _ _ (Some "veg") _
              Hf Hc Hren Hbands) as (a & ds' & Hcall & _ & Hout & Hrest & Hdom).
  exists a, ds'. split; [exact Hcall|]. split; [exact Hout|].
  split; [exact Hrest|exact Hdom].
Defined.

Lemma nbar_only_ga_landsat_3_witness :
  dom sample_nbar
  = list_to_set ["nbar_red"; "nbar_green"; "nbar_blue"; "nbar_nir";
                 "nbar_swir_1"; "nbar_swir_2"] ∧
  ("NDVI" ∈ index_names) ∧
  ∃ a,
    calculate_indices (Some "NDVI") (Some "ga_landsat_3") None sample_nbar
    = (Ok (<["NDVI" := a]> sample_nbar), <["NDVI" := a]> sample_nbar).
Proof.
  assert (Hdom : dom sample_nbar
                 = list_to_set ["nbar_red"; "nbar_green"; "nbar_blue";
                                "nbar_nir"; "nbar_swir_1"; "nbar_swir_2"])
    by (vm_compute; reflexivity).
  assert (Hi : "NDVI" ∈ index_names) by by_computation.
  split; [exact Hdom|]. split; [exact Hi|].
  destruct (nbar_only_ga_landsat_3 "NDVI" None sample_nbar Hdom Hi)
    as (_ & renamed & a & _ & _ & Hcall).
  exists a. exact Hcall.
Defined.

(** C8 as stated fails: with collection [ga_landsat_3] and the output name
    [red], the first call returns and attaches a band [red] next to
    [nbart_red]; in the second call both are to be named [red], and the
    renaming raises. *)
Lemma second_call_raises_on_canonical_output_name :
  let run := calculate_indices (Some "NDVI") (Some "ga_landsat_3")
               (Some "red") sample_nbart in
  run.1 = Ok run.2 ∧
  is_Some (run.2 !! "red") ∧ is_Some (run.2 !! "nbart_red") ∧
  calculate_indices (Some "NDVI") (Some "ga_landsat_3") (Some "red") run.2
  = (Raise (ValueError "the new name conflicts"), run.2).
Proof.
  intros run. split; [vm_compute; reflexivity|].
  split; [eexists; vm_compute; reflexivity|].
  split; [eexists; vm_compute; reflexivity|].
  vm_compute. reflexivity.
Qed.

Lemma second_call_overwrites_witness :
  let run := calculate_indices (Some "NDVI") (Some "ga_landsat_3") None
               sample_nbart in
  run = (Ok run.2, run.2) ∧
  ∃ a2,
    calculate_indices (Some "NDVI") (Some "ga_landsat_3") None run.2
    = (Ok (<["NDVI" := a2]> sample_nbart), <["NDVI" := a2]> sample_nbart) ∧
    <["NDVI" := a2]> sample_nbart !! "NDVI" = Some a2 ∧
    dom (<["NDVI" := a2]> sample_nbart) = dom run.2.
Proof.
  intros run.
  assert (Hrun : run = (Ok run.2, run.2)) by (vm_compute; reflexivity).
  split; [exact Hrun|].
  destruct (second_call_overwrites "NDVI" "ga_landsat_3" None sample_nbart
              run.2 run.2 Hrun (or_introl eq_refl))
    as (f & nd1 & a1 & a2 & _ & _ & _ & _ & Hcall & Hout & Hdom).
  exists a2. split; [exact Hcall|]. split; [exact Hout|exact Hdom].
Defined.
